(** * Landing page (src/App.tsx): the three stateful units

    The page is static markup around three small pieces of state:
    - [CountdownTimer] (App.tsx 91-124): an h/m/s countdown driven by
      [setInterval], rendered through [format];
    - [useScrollReveal] (App.tsx 52-74): a flag set by an
      [IntersectionObserver] callback;
    - [FAQItem] (App.tsx 168-188): an open/closed flag per FAQ entry.

    The clock's fields are JavaScript numbers, IEEE doubles, holding
    integers. An integer-valued double is modelled by its value in [Z];
    subtraction rounds as the double subtraction does, which is exact up to
    2^53 and not above. *)

From Stdlib Require Import ZArith Lia Bool String Ascii.
From stdpp Require Import base option list gmap.
From Equations Require Import Equations.

Local Open Scope Z_scope.

(** ** CountdownTimer: the state updater (App.tsx 92-101) *)

Module Countdown.

(** The object held by [useState] at App.tsx 92. *)
Record TimeLeft : Type := mkTimeLeft
  { hours : Z; minutes : Z; seconds : Z }.

(** [useState({ hours: 1, minutes: 24, seconds: 59 })]. *)
Definition initialTimeLeft : TimeLeft :=
  {| hours := 1; minutes := 24; seconds := 59 |}.

Definition zeroTimeLeft : TimeLeft :=
  {| hours := 0; minutes := 0; seconds := 0 |}.

(** Every integer of magnitude up to 2^53 is a double. *)
Definition two53 : Z := Eval cbv in 2 ^ 53.

(** The double nearest to an exact integer result. From 2^53 on the doubles
    are [2^e] apart, [e] growing with the magnitude, and the result is
    rounded to the nearest of them, a tie going to the even significand. *)
Definition round_double (v : Z) : Z :=
  let a := Z.abs v in
  if a <? two53 then v
  else
    let u := 2 ^ (Z.log2 a - 52) in
    let q := a / u in
    let r := a mod u in
    let q' := if 2 * r <? u then q
              else if u <? 2 * r then q + 1
              else if Z.even q then q else q + 1 in
    Z.sgn v * (q' * u).

(** [x - 1] on numbers. *)
Definition minus1 (x : Z) : Z := round_double (x - 1).

(** The object spreads of lines 97 and 98: every field of [prev] is
    copied, then the listed fields are overwritten. *)
Definition spread_seconds (prev : TimeLeft) (s : Z) : TimeLeft :=
  {| hours := hours prev; minutes := minutes prev; seconds := s |}.

Definition spread_minutes_seconds (prev : TimeLeft) (m s : Z) : TimeLeft :=
  {| hours := hours prev; minutes := m; seconds := s |}.

(** The updater passed to [setTimeLeft] (lines 96-101). *)
Definition tick (prev : TimeLeft) : TimeLeft :=
  if seconds prev >? 0 then spread_seconds prev (minus1 (seconds prev))
  else if minutes prev >? 0 then
    spread_minutes_seconds prev (minus1 (minutes prev)) 59
  else if hours prev >? 0 then
    {| hours := minus1 (hours prev); minutes := 59; seconds := 59 |}
  else prev.

(** [n] firings of the interval: the updater is applied to the current
    state each time. *)
Fixpoint ticks (n : nat) (st : TimeLeft) : TimeLeft :=
  match n with
  | O => st
  | S k => ticks k (tick st)
  end.

(** The value the three fields display, in seconds. *)
Definition toSeconds (st : TimeLeft) : Z :=
  hours st * 3600 + minutes st * 60 + seconds st.

Definition nonneg (st : TimeLeft) : Prop :=
  0 <= hours st /\ 0 <= minutes st /\ 0 <= seconds st.

(** No field above 2^53: the states on which the subtraction is exact. *)
Definition safe (st : TimeLeft) : Prop :=
  hours st <= two53 /\ minutes st <= two53 /\ seconds st <= two53.

(** The ranges the data model gives the fields. *)
Definition in_range (st : TimeLeft) : Prop :=
  0 <= hours st /\ 0 <= minutes st <= 59 /\ 0 <= seconds st <= 59.


End Countdown.

(** ** CountdownTimer: rendering of a field (App.tsx 106) *)

Module Format.

Local Open Scope string_scope.

(** The character of a decimal digit: code unit 48 + d. *)
Definition digit (d : Z) : ascii := ascii_of_nat (48 + Z.to_nat d).

(** Decimal digits of a non-negative integer, most significant first,
    without leading zeros. *)
Equations? decimal (n : Z) : string by wf (Z.to_nat n) lt :=
  decimal n with Z_lt_dec n 10 => {
    | left _ := String (digit n) EmptyString;
    | right _ := decimal (n / 10) ++ String (digit (n mod 10)) EmptyString }.
Proof.
  assert (n / 10 < n) by (apply Z.div_lt; lia).
  assert (0 <= n / 10) by (apply Z.div_pos; lia).
  lia.
Qed.

(** [Number.prototype.toString()] on an integer of magnitude up to 2^53,
    where every digit is printed: a minus sign for a negative number, then
    its decimal digits. (Above 2^53 the language prints the shortest digits
    that read back as the same double, and an exponent from 1e21 on; the
    clock's fields are far below.) *)
Definition toString (n : Z) : string :=
  if (n <? 0)%Z then String "-" (decimal (- n)) else decimal n.

(** The filler of [padStart]: [pad] repeated and cut to [len] characters;
    [rest] is what is left of the current repetition. *)
Fixpoint filler (pad rest : string) (len : nat) : string :=
  match len with
  | O => EmptyString
  | S k =>
      match rest with
      | String c rest' => String c (filler pad rest' k)
      | EmptyString =>
          match pad with
          | String c pad' => String c (filler pad pad' k)
          | EmptyString => EmptyString
          end
      end
  end.

(** [String.prototype.padStart(targetLength, padString)]: the string
    itself when it is already long enough or the pad is empty, else the
    filler followed by the string. *)
Definition padStart (s : string) (targetLength : nat) (padString : string)
  : string :=
  if (targetLength <=? String.length s)%nat then s
  else filler padString padString (targetLength - String.length s)%nat ++ s.

(** [const format = (n: number) => n.toString().padStart(2, '0')]. *)
Definition format (n : Z) : string := padStart (toString n) 2 "0".

(** The three boxes of the render, lines 110-117: hours, minutes and
    seconds, each through [format]. *)
Definition boxes (st : Countdown.TimeLeft) : list string :=
  format <$> [Countdown.hours st; Countdown.minutes st; Countdown.seconds st].

End Format.

(** ** CountdownTimer: the interval and its cleanup (App.tsx 94-104) *)

Module Lifecycle.
Import Countdown.

(** The host's timer table: the ids of the intervals that are still
    scheduled, and the next id [setInterval] hands out. The page passes
    one callback only to [setInterval], the one of line 95. A host has to
    return an id that is not in use; counting up is one way to do so, and
    the properties below do not rest on ids never coming back. *)
Record Host : Type := mkHost
  { nextTimer : nat; intervals : gset nat }.

Definition setInterval (h : Host) : nat * Host :=
  (nextTimer h,
   {| nextTimer := S (nextTimer h);
      intervals := {[ nextTimer h ]} ∪ intervals h |}).

(** Clearing an id that is not scheduled does nothing. *)
Definition clearInterval (id : nat) (h : Host) : Host :=
  {| nextTimer := nextTimer h; intervals := intervals h ∖ {[ id ]} |}.

(** A mounted clock: its state and the [timer] handle its cleanup
    closure captured (line 103). *)
Record Instance : Type := mkInstance
  { timeLeft : TimeLeft; timer : nat }.

Definition setTimeLeft (f : TimeLeft -> TimeLeft) (c : Instance) : Instance :=
  {| timeLeft := f (timeLeft c); timer := timer c |}.

(** The page has one [<CountdownTimer />] (line 384): it is mounted or
    not. [fired] counts the runs of the interval callback. *)
Record World : Type := mkWorld
  { host : Host; clock : option Instance; fired : nat }.

Inductive Event : Type :=
| Mount
| Fire (id : nat)
| Dispose.

Definition init (firstId : nat) : World :=
  {| host := {| nextTimer := firstId; intervals := ∅ |};
     clock := None; fired := 0 |}.

(** Mounting: [useState] with the constant, then the effect of line 94
    takes an interval. *)
Definition mount (w : World) : World :=
  match clock w with
  | Some _ => w
  | None =>
      let '(t, h) := setInterval (host w) in
      {| host := h;
         clock := Some {| timeLeft := initialTimeLeft; timer := t |};
         fired := fired w |}
  end.

(** The host reaches the period of interval [id]: the callback runs only
    if [id] is still scheduled; a state update on a clock that is no
    longer mounted is dropped. *)
Definition fire (id : nat) (w : World) : World :=
  if decide (id ∈ intervals (host w)) then
    {| host := host w;
       clock := setTimeLeft tick <$> clock w;
       fired := S (fired w) |}
  else w.

(** Disposal runs the cleanup [() => clearInterval(timer)]; it has no
    condition. *)
Definition dispose (w : World) : World :=
  match clock w with
  | Some c =>
      {| host := clearInterval (timer c) (host w);
         clock := None; fired := fired w |}
  | None => w
  end.

Definition step (w : World) (e : Event) : World :=
  match e with
  | Mount => mount w
  | Fire id => fire id w
  | Dispose => dispose w
  end.

Definition run (es : list Event) (w : World) : World := foldl step w es.

(** What is scheduled is exactly the handle of the mounted clock. *)
Definition timers_owned (w : World) : Prop :=
  intervals (host w) =
    match clock w with
    | Some c => {[ timer c ]}
    | None => ∅
    end.

End Lifecycle.

(** ** useScrollReveal (App.tsx 52-74) *)

Module ScrollReveal.

(** What the callback reads of an [IntersectionObserverEntry]. *)
Record Entry : Type := mkEntry { isIntersecting : bool }.

(** The host environment: whether the global [IntersectionObserver]
    is defined. *)
Record Env : Type := mkEnv { intersectionObserver : bool }.

Inductive JsError : Type :=
| ReferenceError (name : string).

(** The hook's state: the flag, and the element under observation. *)
Record Hook : Type := mkHook
  { isVisible : bool; observed : option nat }.

Definition setIsVisible (v : bool) (h : Hook) : Hook :=
  {| isVisible := v; observed := observed h |}.

(** [useState(false)]: the flag of the first render, which precedes the
    effect. *)
Definition firstRender : bool := false.

(** The effect body, lines 57-66: [new IntersectionObserver(...)] is
    evaluated with no test of the global; on an undefined global the
    evaluation throws. Then [if (current) observer.observe(current)]. *)
Definition effect (env : Env) (current : option nat)
  : JsError + option nat :=
  if intersectionObserver env then inr current
  else inl (ReferenceError "IntersectionObserver").

Definition mount (env : Env) (current : option nat) : JsError + Hook :=
  match effect env current with
  | inl e => inl e
  | inr obs => inr {| isVisible := firstRender; observed := obs |}
  end.

(** The observer callback, lines 57-63. *)
Definition callback (entries : list Entry) (h : Hook) : Hook :=
  foldl (fun h entry =>
           if isIntersecting entry then setIsVisible true h else h)
        h entries.

(** Successive invocations of the callback by the host. *)
Definition deliver (batches : list (list Entry)) (h : Hook) : Hook :=
  foldl (fun h entries => callback entries h) h batches.

(** The cleanup, lines 68-70. *)
Definition cleanup (h : Hook) : Hook :=
  {| isVisible := isVisible h; observed := None |}.

(** The fallback the specification asks for: mounting succeeds and the
    flag reads true. *)
Definition degrades_to_visible (env : Env) (current : option nat) : Prop :=
  exists h, mount env current = inr h /\ isVisible h = true.

End ScrollReveal.

(** ** FAQItem (App.tsx 168-188) *)

Module FAQ.

Record FAQItem : Type := mkFAQItem { isOpen : bool }.

(** [useState(false)]. *)
Definition closed : FAQItem := {| isOpen := false |}.

Definition setIsOpen (v : bool) (_ : FAQItem) : FAQItem := {| isOpen := v |}.

(** [onClick={() => setIsOpen(!isOpen)}]: the handler built by a render
    closes over the flag of that render. *)
Definition onClick (rendered : FAQItem) : FAQItem -> FAQItem :=
  setIsOpen (negb (isOpen rendered)).

(** A click is a discrete event: the item has been rendered with its
    current state when the next click arrives, so the handler that runs
    is the one of the current state. *)
Definition click (item : FAQItem) : FAQItem := onClick item item.

(** The FAQ list: each entry with its own state; a click on entry [i]
    runs the handler of that entry, and there is nothing to click at an
    index past the list. *)
Definition toggle (i : nat) (items : list FAQItem) : list FAQItem :=
  alter click i items.

(** The list as the page mounts it (lines 439-454). *)
Definition mounted : list FAQItem := [closed; closed; closed; closed].

End FAQ.

(** ** Notions used to state further properties of the code above *)

Module Reading.
Import Countdown.

(** The h/m/s reading of a number of seconds. *)
Definition ofSeconds (t : Z) : TimeLeft :=
  {| hours := t / 3600; minutes := (t / 60) mod 60; seconds := t mod 60 |}.

(** The number a string of decimal digits denotes, read left to right. *)
Definition digit_value (c : ascii) : Z := Z.of_nat (nat_of_ascii c) - 48.

Fixpoint value_from (acc : Z) (s : string) : Z :=
  match s with
  | EmptyString => acc
  | String c rest => value_from (10 * acc + digit_value c) rest
  end.

Definition value (s : string) : Z := value_from 0 s.

(** A sequence of clicks on the FAQ list, by index, first click first. *)
Definition click_all (clicks : list nat) (items : list FAQ.FAQItem)
  : list FAQ.FAQItem :=
  foldl (fun l i => FAQ.toggle i l) items clicks.

(** The mounted clock shows a time within the field ranges and no more
    than the initial 1:24:59. *)
Definition clock_bounded (w : Lifecycle.World) : Prop :=
  match Lifecycle.clock w with
  | Some c => in_range (Lifecycle.timeLeft c)
              /\ toSeconds (Lifecycle.timeLeft c) <= 5099
  | None => True
  end.

End Reading.

Module CountdownFacts.
Import Countdown.


(** Up to 2^53 the subtraction is the exact one. *)
Lemma minus1_exact (x : Z) : 0 < x <= two53 -> minus1 x = x - 1.
Proof.
  intros Hx. unfold minus1, round_double.
  destruct (Z.ltb_spec (Z.abs (x - 1)) two53) as [_ | Hge]; [reflexivity |].
  lia.
Qed.

(** From 2^53 on it rounds: to the even neighbour at a tie. *)
Example minus1_rounds :
  minus1 (2 ^ 53) = 2 ^ 53 - 1
  /\ minus1 (2 ^ 53 + 2) = 2 ^ 53
  /\ minus1 (2 ^ 53 + 4) = 2 ^ 53 + 4
  /\ minus1 (2 ^ 54) = 2 ^ 54
  /\ minus1 (2 ^ 55 + 8) = 2 ^ 55 + 8.
Proof. repeat split; vm_compute; reflexivity. Qed.

(** Case analysis on the three guards of [tick], as arithmetic facts. *)
Ltac tick_cases st :=
  unfold tick, spread_seconds, spread_minutes_seconds;
  destruct (Z.gtb_spec (seconds st) 0);
  [| destruct (Z.gtb_spec (minutes st) 0);
     [| destruct (Z.gtb_spec (hours st) 0)]];
  cbn [hours minutes seconds].

(** The same on states whose fields are at most 2^53. *)
Ltac tick_cases_exact st :=
  unfold two53 in *; tick_cases st;
  rewrite ?minus1_exact by (unfold two53; lia).

Lemma tick_nonneg (st : TimeLeft) :
  nonneg st -> safe st -> nonneg (tick st).
Proof.
  unfold nonneg, safe. intros (Hh & Hm & Hs) (Bh & Bm & Bs).
  tick_cases_exact st; lia.
Qed.

Lemma tick_safe (st : TimeLeft) : safe st -> safe (tick st).
Proof.
  unfold safe. intros (Bh & Bm & Bs).
  tick_cases_exact st; lia.
Qed.

Lemma toSeconds_nonneg (st : TimeLeft) : nonneg st -> 0 <= toSeconds st.
Proof. unfold nonneg, toSeconds. lia. Qed.

Lemma toSeconds_zero (st : TimeLeft) :
  nonneg st -> toSeconds st = 0 -> st = zeroTimeLeft.
Proof.
  unfold nonneg, toSeconds, zeroTimeLeft.
  destruct st as [h m s]; cbn. intros (Hh & Hm & Hs) H.
  f_equal; lia.
Qed.

Lemma toSeconds_tick_pos (st : TimeLeft) :
  nonneg st -> safe st -> 0 < toSeconds st ->
  toSeconds (tick st) = toSeconds st - 1.
Proof.
  unfold nonneg, safe, toSeconds. intros (Hh & Hm & Hs) (Bh & Bm & Bs) Hpos.
  tick_cases_exact st; lia.
Qed.

Lemma tick_zero : tick zeroTimeLeft = zeroTimeLeft.
Proof. reflexivity. Qed.

Lemma ticks_zero (k : nat) : ticks k zeroTimeLeft = zeroTimeLeft.
Proof. induction k as [|k IH]; [reflexivity | exact IH]. Qed.

Lemma ticks_add (a b : nat) (st : TimeLeft) :
  ticks (a + b) st = ticks b (ticks a st).
Proof.
  revert st. induction a as [|a IH]; intros st; [reflexivity |].
  cbn [Nat.add ticks]. apply IH.
Qed.

(** A state the updater returns unchanged stays for good. *)
Lemma ticks_fixed (st : TimeLeft) :
  tick st = st -> forall n, ticks n st = st.
Proof.
  intros Hfix. induction n as [|n IH]; [reflexivity |].
  cbn [ticks]. by rewrite Hfix.
Qed.

(** A clock showing [n] seconds reaches zero after [n] ticks. *)
Lemma ticks_reach_zero (n : nat) :
  forall st, nonneg st -> safe st -> toSeconds st = Z.of_nat n ->
             ticks n st = zeroTimeLeft.
Proof.
  induction n as [|n IH]; intros st Hnn Hsafe Hsec.
  - cbn [ticks]. apply toSeconds_zero; [assumption | lia].
  - cbn [ticks]. apply IH.
    + by apply tick_nonneg.
    + by apply tick_safe.
    + rewrite toSeconds_tick_pos by (assumption || lia). lia.
Qed.

(** C1 as the specification states it fails: the clock 0:00:2^54 has
    non-negative fields, but 2^54 - 1 rounds back to 2^54, so the updater
    returns it unchanged and no number of ticks leads to 0:00:00. *)
Lemma countdown_stuck_counterexample :
  let st := {| hours := 0; minutes := 0; seconds := 2 ^ 54 |} in
  (0 <= hours st /\ 0 <= minutes st /\ 0 <= seconds st)
  /\ tick st = st
  /\ ticks (Z.to_nat (hours st * 3600 + minutes st * 60 + seconds st)) st
     <> zeroTimeLeft.
Proof.
  intros st.
  assert (Hfix : tick st = st) by (vm_compute; reflexivity).
  split; [cbn; lia |]. split; [exact Hfix |].
  rewrite (ticks_fixed st Hfix). intros Heq.
  apply (f_equal seconds) in Heq. vm_compute in Heq. discriminate Heq.
Qed.

(** C1, amended: from any clock whose fields are integers from 0 to 2^53,
    exactly [hours*3600 + minutes*60 + seconds] ticks lead to 0:00:00, and
    any number of further ticks leave it there. *)
Theorem countdown_terminates (st : TimeLeft) :
  0 <= hours st <= two53 -> 0 <= minutes st <= two53 ->
  0 <= seconds st <= two53 ->
  ticks (Z.to_nat (hours st * 3600 + minutes st * 60 + seconds st)) st
    = zeroTimeLeft
  /\ forall k : nat,
      ticks (Z.to_nat (hours st * 3600 + minutes st * 60 + seconds st) + k)
            st = zeroTimeLeft.
Proof.
  intros Hh Hm Hs.
  assert (Hnn : nonneg st) by (unfold nonneg; lia).
  assert (Hsafe : safe st) by (unfold safe; lia).
  assert (Hz : ticks (Z.to_nat (toSeconds st)) st = zeroTimeLeft).
  { apply ticks_reach_zero; [assumption | assumption |].
    rewrite Z2Nat.id; [reflexivity | apply toSeconds_nonneg, Hnn]. }
  unfold toSeconds in Hz. split; [exact Hz |].
  intros k. rewrite ticks_add, Hz. apply ticks_zero.
Qed.

Lemma countdown_terminates_witness :
  ticks 65 {| hours := 0; minutes := 1; seconds := 5 |} = zeroTimeLeft
  /\ forall k : nat,
      ticks (65 + k) {| hours := 0; minutes := 1; seconds := 5 |}
        = zeroTimeLeft.
Proof.
  apply (countdown_terminates {| hours := 0; minutes := 1; seconds := 5 |});
    unfold two53; cbn; lia.
Defined.


(** C6 as the specification states it fails: 2^54:00:00 is within the
    ranges, but 2^54 - 1 rounds back to 2^54, so the borrow leaves the hours
    as they are and sets 59:59: the total rises by 3599. *)
Lemma tick_total_rises_counterexample :
  let st := {| hours := 2 ^ 54; minutes := 0; seconds := 0 |} in
  (0 <= hours st /\ 0 <= minutes st <= 59 /\ 0 <= seconds st <= 59)
  /\ tick st = {| hours := 2 ^ 54; minutes := 59; seconds := 59 |}
  /\ ~ toSeconds (tick st) <= toSeconds st.
Proof.
  intros st. split; [cbn; lia |].
  split; [vm_compute; reflexivity |].
  vm_compute. intros H. apply H. reflexivity.
Qed.

(** C6, amended: on a clock with hours from 0 to 2^53 and minutes and
    seconds in 0..59, a tick keeps these bounds, yields no negative field,
    and does not increase the displayed total of seconds. *)
Theorem tick_range_monotone (st : TimeLeft) :
  0 <= hours st <= two53 -> 0 <= minutes st <= 59 -> 0 <= seconds st <= 59 ->
  (in_range (tick st) /\ hours (tick st) <= two53)
  /\ (0 <= hours (tick st) /\ 0 <= minutes (tick st)
      /\ 0 <= seconds (tick st))
  /\ toSeconds (tick st) <= toSeconds st.
Proof.
  unfold in_range, toSeconds. intros Hh Hm Hs.
  tick_cases_exact st; lia.
Qed.

Lemma tick_range_monotone_witness :
  (in_range (tick {| hours := 1; minutes := 0; seconds := 0 |})
   /\ hours (tick {| hours := 1; minutes := 0; seconds := 0 |}) <= two53)
  /\ (0 <= hours (tick {| hours := 1; minutes := 0; seconds := 0 |})
      /\ 0 <= minutes (tick {| hours := 1; minutes := 0; seconds := 0 |})
      /\ 0 <= seconds (tick {| hours := 1; minutes := 0; seconds := 0 |}))
  /\ toSeconds (tick {| hours := 1; minutes := 0; seconds := 0 |})
     <= toSeconds {| hours := 1; minutes := 0; seconds := 0 |}.
Proof.
  apply (tick_range_monotone {| hours := 1; minutes := 0; seconds := 0 |});
    unfold two53; cbn; lia.
Defined.

(** C10 as stated fails: at (2^53+2):00:00 the exact 2^53+1 is no double
    and rounds to 2^53, so the tick takes 3601 seconds off the total, not
    one. *)
Lemma tick_drop_counterexample :
  let st := {| hours := 2 ^ 53 + 2; minutes := 0; seconds := 0 |} in
  (0 <= hours st /\ 0 <= minutes st /\ 0 <= seconds st)
  /\ toSeconds (tick st) = toSeconds st - 3601
  /\ toSeconds (tick st) <> Z.max (toSeconds st - 1) 0.
Proof.
  intros st. split; [cbn; lia |].
  split; [vm_compute; reflexivity |].
  vm_compute. discriminate.
Qed.

(** C10, amended: under [toSeconds], a tick on a clock whose fields are
    integers from 0 to 2^53 is decrement-by-one truncated at zero. *)
Theorem tick_refines_decrement (st : TimeLeft) :
  0 <= hours st <= two53 -> 0 <= minutes st <= two53 ->
  0 <= seconds st <= two53 ->
  toSeconds (tick st) = Z.max (toSeconds st - 1) 0.
Proof.
  intros Hh Hm Hs.
  assert (Hnn : nonneg st) by (unfold nonneg; lia).
  assert (Hsafe : safe st) by (unfold safe; lia).
  pose proof (toSeconds_nonneg st Hnn) as H0.
  destruct (Z.eq_dec (toSeconds st) 0) as [Hz | Hnz].
  - rewrite (toSeconds_zero st Hnn Hz). reflexivity.
  - rewrite toSeconds_tick_pos by (assumption || lia). lia.
Qed.

Lemma tick_refines_decrement_witness :
  toSeconds (tick {| hours := 2; minutes := 0; seconds := 0 |})
  = Z.max (toSeconds {| hours := 2; minutes := 0; seconds := 0 |} - 1) 0.
Proof.
  apply (tick_refines_decrement {| hours := 2; minutes := 0; seconds := 0 |});
    unfold two53; cbn; lia.
Defined.

End CountdownFacts.

Module FormatFacts.
Import Format.
Local Open Scope string_scope.

Example format_5 : format 5 = "05".
Proof. reflexivity. Qed.

Example format_42 : format 42 = "42".
Proof. reflexivity. Qed.

Example format_100 : format 100 = "100".
Proof. reflexivity. Qed.

Example format_negative : format (-5) = "-5".
Proof. reflexivity. Qed.

(** Scenarios 1 and 2 of the specification. *)
Example scenario_three_seconds :
  boxes (Countdown.ticks 3 (Countdown.mkTimeLeft 0 0 3)) = ["00"; "00"; "00"]
  /\ boxes (Countdown.ticks 4 (Countdown.mkTimeLeft 0 0 3))
     = ["00"; "00"; "00"].
Proof. split; reflexivity. Qed.

Example scenario_one_minute :
  boxes (Countdown.ticks 1 (Countdown.mkTimeLeft 0 1 0)) = ["00"; "00"; "59"]
  /\ boxes (Countdown.ticks 61 (Countdown.mkTimeLeft 0 1 0))
     = ["00"; "00"; "00"].
Proof. split; reflexivity. Qed.

Lemma decimal_one_digit (n : Z) :
  n < 10 -> decimal n = String (digit n) EmptyString.
Proof.
  intros Hn. simp decimal.
  destruct (Z_lt_dec n 10) as [Hlt | Hge]; [reflexivity | lia].
Qed.

Lemma decimal_more_digits (n : Z) :
  10 <= n ->
  decimal n = decimal (n / 10) ++ String (digit (n mod 10)) EmptyString.
Proof.
  intros Hn. rewrite (decimal_equation_1 n).
  destruct (Z_lt_dec n 10) as [Hlt | Hge]; [lia | reflexivity].
Qed.

Lemma decimal_two_digits (n : Z) :
  10 <= n < 100 ->
  decimal n = String (digit (n / 10)) (String (digit (n mod 10)) EmptyString).
Proof.
  intros Hn. rewrite decimal_more_digits by lia.
  rewrite decimal_one_digit; [reflexivity |].
  apply Z.div_lt_upper_bound; lia.
Qed.

Lemma digit_zero : digit 0 = "0"%char.
Proof. reflexivity. Qed.

(** C7: for 0 <= n <= 59, [format n] has exactly two characters: the
    tens digit of [n] ('0' when n < 10) followed by its units digit, which
    is the decimal rendering of [n] padded on the left with '0'. *)
Theorem format_two_digits (n : Z) :
  0 <= n <= 59 ->
  String.length (format n) = 2%nat
  /\ format n = String (digit (n / 10)) (String (digit (n mod 10)) EmptyString)
  /\ format n = (if (n <? 10)%Z then "0" ++ toString n else toString n).
Proof.
  intros Hn. unfold format, toString.
  destruct (Z.ltb_spec n 0) as [Hneg | _]; [lia |].
  destruct (Z.ltb_spec n 10) as [Hlt | Hge].
  - rewrite decimal_one_digit by assumption.
    rewrite Z.div_small, Z.mod_small by lia.
    repeat split; reflexivity.
  - rewrite decimal_two_digits by lia.
    repeat split; reflexivity.
Qed.

Lemma format_two_digits_witness :
  String.length (format 5) = 2%nat
  /\ format 5 = "05"
  /\ format 5 = "0" ++ toString 5.
Proof. apply (format_two_digits 5). lia. Defined.

End FormatFacts.

Module LifecycleFacts.
Import Countdown Lifecycle.

Lemma timers_owned_init (n : nat) : timers_owned (init n).
Proof. reflexivity. Qed.

Lemma timers_owned_step (w : World) (e : Event) :
  timers_owned w -> timers_owned (step w e).
Proof.
  unfold timers_owned. intros Hw.
  destruct e as [| id |]; cbn [step].
  - unfold mount. destruct (clock w) as [c|] eqn:Hc; [by rewrite Hc |].
    cbn. rewrite Hw. apply (right_id_L ∅ (∪)).
  - unfold fire. case_decide; [| assumption].
    cbn. rewrite Hw. by destruct (clock w).
  - unfold dispose. destruct (clock w) as [c|] eqn:Hc; [| by rewrite Hc].
    cbn. rewrite Hw. apply difference_diag_L.
Qed.

Lemma run_snoc (es : list Event) (e : Event) (w : World) :
  run (es ++ [e]) w = step (run es w) e.
Proof. unfold run. by rewrite foldl_app. Qed.

Lemma timers_owned_run (es : list Event) (w : World) :
  timers_owned w -> timers_owned (run es w).
Proof.
  revert w. induction es as [|e es IH]; intros w Hw; [assumption |].
  cbn. apply IH, timers_owned_step, Hw.
Qed.

Lemma dispose_unmounts (w : World) : clock (dispose w) = None.
Proof. unfold dispose. by destruct (clock w) eqn:Hc. Qed.

(** With nothing scheduled, no delivery runs the callback. *)
Lemma fire_idle (ids : list nat) (w : World) :
  intervals (host w) = ∅ -> run (Fire <$> ids) w = w.
Proof.
  intros Hw. induction ids as [|id ids IH]; [reflexivity |].
  cbn. unfold fire. rewrite Hw.
  case_decide as Hin; [set_solver | exact IH].
Qed.

(** C8: whatever happened before, disposing the clock leaves it
    unmounted with no interval scheduled, and no later timer delivery
    changes anything: the callback does not run again. *)
Theorem no_tick_after_dispose
  (firstId : nat) (history : list Event) (ids : list nat) :
  let w := step (run history (init firstId)) Dispose in
  clock w = None
  /\ intervals (host w) = ∅
  /\ run (Fire <$> ids) w = w
  /\ fired (run (Fire <$> ids) w) = fired w.
Proof.
  intros w.
  assert (Hown : timers_owned w).
  { apply timers_owned_step, timers_owned_run, timers_owned_init. }
  assert (Hc : clock w = None) by apply dispose_unmounts.
  assert (He : intervals (host w) = ∅).
  { unfold timers_owned in Hown. by rewrite Hc in Hown. }
  rewrite (fire_idle ids w He). done.
Qed.

(** While mounted the interval does tick: the property above is not
    that of a clock that never ticks. *)
Example fire_while_mounted :
  run [Mount; Fire 1; Fire 1] (init 1)
  = {| host := {| nextTimer := 2; intervals := {[ 1%nat ]} |};
       clock := Some {| timeLeft := {| hours := 1; minutes := 24;
                                       seconds := 57 |};
                        timer := 1 |};
       fired := 2 |}.
Proof.
  unfold run, init; cbn. unfold mount, fire; cbn.
  rewrite !decide_True by set_solver. cbn.
  by rewrite (right_id_L ∅ (∪)).
Qed.

(** C9: a clock mounted when none is mounted starts from the constant
    1:24:59, whatever the world went through before. *)
Theorem mount_starts_from_constant (w : World) :
  clock w = None ->
  timeLeft <$> clock (step w Mount)
  = Some {| hours := 1; minutes := 24; seconds := 59 |}.
Proof. intros Hc. cbn. unfold mount. by rewrite Hc. Qed.

Lemma mount_starts_from_constant_witness :
  timeLeft <$>
    clock (step (run [Mount; Fire 1; Fire 1; Dispose] (init 1)) Mount)
  = Some {| hours := 1; minutes := 24; seconds := 59 |}.
Proof.
  apply (mount_starts_from_constant
           (run [Mount; Fire 1; Fire 1; Dispose] (init 1))).
  vm_compute. reflexivity.
Defined.

End LifecycleFacts.

Module ScrollRevealFacts.
Import ScrollReveal.

(** The flag after a callback: what it was, or true once an entry
    reports intersection. *)
Lemma callback_isVisible (entries : list Entry) (h : Hook) :
  isVisible (callback entries h)
  = isVisible h || existsb isIntersecting entries.
Proof.
  unfold callback. revert h.
  induction entries as [|e es IH]; intros h; cbn.
  - by rewrite orb_false_r.
  - rewrite IH. destruct (isIntersecting e); cbn; [| reflexivity].
    by rewrite orb_true_r.
Qed.

Lemma callback_keeps_true (entries : list Entry) (h : Hook) :
  isVisible h = true -> isVisible (callback entries h) = true.
Proof. intros Hv. by rewrite callback_isVisible, Hv. Qed.

Lemma deliver_keeps_true (batches : list (list Entry)) (h : Hook) :
  isVisible h = true -> isVisible (deliver batches h) = true.
Proof.
  unfold deliver. revert h.
  induction batches as [|b bs IH]; intros h Hv; [assumption |].
  cbn. apply IH, callback_keeps_true, Hv.
Qed.

Lemma deliver_app (b1 b2 : list (list Entry)) (h : Hook) :
  deliver (b1 ++ b2) h = deliver b2 (deliver b1 h).
Proof. unfold deliver. apply foldl_app. Qed.

Lemma existsb_quiet (entries : list Entry) :
  Forall (fun e => isIntersecting e = false) entries ->
  existsb isIntersecting entries = false.
Proof.
  induction 1 as [|e es He _ IH]; [reflexivity |].
  cbn. by rewrite He, IH.
Qed.

Lemma existsb_intersecting (entries : list Entry) :
  Exists (fun e => isIntersecting e = true) entries ->
  existsb isIntersecting entries = true.
Proof.
  induction 1 as [e es He | e es _ IH]; cbn.
  - by rewrite He.
  - rewrite IH. apply orb_true_r.
Qed.

Lemma deliver_quiet (batches : list (list Entry)) (h : Hook) :
  Forall (Forall (fun e => isIntersecting e = false)) batches ->
  isVisible (deliver batches h) = isVisible h.
Proof.
  unfold deliver. intros Hq. revert h.
  induction Hq as [|b bs Hb _ IH]; intros h; [reflexivity |].
  cbn. rewrite IH, callback_isVisible, (existsb_quiet b Hb).
  apply orb_false_r.
Qed.

Lemma mount_isVisible (env : Env) (current : option nat) (h : Hook) :
  mount env current = inr h -> isVisible h = false.
Proof.
  unfold mount, effect.
  destruct (intersectionObserver env); [| discriminate].
  intros [= <-]. reflexivity.
Qed.

(** C3: a mounted hook starts with the flag false and keeps it false as
    long as no entry reports intersection; the callback that carries the
    first intersecting entry sets it, and it stays set through every
    later callback, whatever the entries report. *)
Theorem visibility_one_way
  (env : Env) (current : option nat) (h0 : Hook)
  (quiet : list (list Entry)) (batch : list Entry)
  (later : list (list Entry)) :
  mount env current = inr h0 ->
  Forall (Forall (fun e => isIntersecting e = false)) quiet ->
  Exists (fun e => isIntersecting e = true) batch ->
  isVisible h0 = false
  /\ isVisible (deliver quiet h0) = false
  /\ isVisible (deliver (quiet ++ [batch]) h0) = true
  /\ isVisible (deliver (quiet ++ batch :: later) h0) = true.
Proof.
  intros Hm Hq Hb.
  pose proof (mount_isVisible env current h0 Hm) as H0.
  assert (H1 : isVisible (callback batch (deliver quiet h0)) = true).
  { rewrite callback_isVisible, (existsb_intersecting batch Hb).
    apply orb_true_r. }
  split; [exact H0 |]. split; [by rewrite deliver_quiet |].
  rewrite !deliver_app. split; [exact H1 |].
  cbn. apply (deliver_keeps_true later), H1.
Qed.

Lemma visibility_one_way_witness :
  let h0 := {| isVisible := false; observed := Some 0%nat |} in
  let off := {| isIntersecting := false |} in
  let on := {| isIntersecting := true |} in
  isVisible h0 = false
  /\ isVisible (deliver [[off]; [off; off]] h0) = false
  /\ isVisible (deliver ([[off]; [off; off]] ++ [[off; on]]) h0) = true
  /\ isVisible (deliver ([[off]; [off; off]] ++ [off; on] :: [[off]; []]) h0)
     = true.
Proof.
  intros h0 off on.
  apply (visibility_one_way {| intersectionObserver := true |} (Some 0%nat)
           h0 [[off]; [off; off]] [off; on] [[off]; []]).
  - reflexivity.
  - repeat constructor.
  - apply Exists_cons_tl, Exists_cons_hd. reflexivity.
Defined.

(** C4 as the specification states it fails: with the global undefined,
    mounting throws, and the flag does not read true. *)
Lemma fallback_counterexample :
  mount {| intersectionObserver := false |} (Some 0%nat)
  = inl (ReferenceError "IntersectionObserver")
  /\ ~ degrades_to_visible {| intersectionObserver := false |} (Some 0%nat).
Proof.
  split; [reflexivity |].
  intros (h & Hm & _). discriminate Hm.
Qed.

(** C4, amended: with the global [IntersectionObserver] undefined, the
    hook's effect throws a ReferenceError and mounting fails without
    observing anything; the flag of the render that preceded the effect
    is false. There is no always-visible fallback. *)
Theorem no_fallback_without_observer (env : Env) (current : option nat) :
  intersectionObserver env = false ->
  effect env current = inl (ReferenceError "IntersectionObserver")
  /\ mount env current = inl (ReferenceError "IntersectionObserver")
  /\ firstRender = false
  /\ ~ degrades_to_visible env current.
Proof.
  intros Habs. unfold degrades_to_visible, mount, effect. rewrite Habs.
  repeat split. intros (h & Hm & _). discriminate Hm.
Qed.

Lemma no_fallback_without_observer_witness :
  effect {| intersectionObserver := false |} (Some 0%nat)
  = inl (ReferenceError "IntersectionObserver")
  /\ mount {| intersectionObserver := false |} (Some 0%nat)
     = inl (ReferenceError "IntersectionObserver")
  /\ firstRender = false
  /\ ~ degrades_to_visible {| intersectionObserver := false |} (Some 0%nat).
Proof.
  apply (no_fallback_without_observer
           {| intersectionObserver := false |} (Some 0%nat)).
  reflexivity.
Defined.

End ScrollRevealFacts.

Module FAQFacts.
Import FAQ.

Lemma click_flips (item : FAQItem) :
  isOpen (click item) = negb (isOpen item).
Proof. reflexivity. Qed.

Lemma click_click (item : FAQItem) : click (click item) = item.
Proof. destruct item as [b]. unfold click, onClick, setIsOpen; cbn.
       by rewrite negb_involutive. Qed.

Lemma toggle_length (i : nat) (items : list FAQItem) :
  length (toggle i items) = length items.
Proof. apply length_alter. Qed.

Lemma toggle_toggle (i : nat) (items : list FAQItem) :
  toggle i (toggle i items) = items.
Proof.
  unfold toggle. rewrite list_alter_alter_eq.
  apply list_alter_id. intros item. apply click_click.
Qed.

(** C5: toggling FAQ entry [i] leaves every other entry [j] as it was,
    and toggling [i] a second time restores entry [i] (and with it the
    whole list). *)
Theorem toggle_independent_involution
  (items : list FAQItem) (i j : nat) :
  j <> i ->
  toggle i items !! j = items !! j
  /\ toggle i (toggle i items) !! i = items !! i
  /\ toggle i (toggle i items) = items.
Proof.
  intros Hj. split; [| split].
  - unfold toggle. apply list_lookup_alter_ne. congruence.
  - by rewrite toggle_toggle.
  - apply toggle_toggle.
Qed.

Lemma toggle_independent_involution_witness :
  toggle 1 mounted !! 2%nat = mounted !! 2%nat
  /\ toggle 1 (toggle 1 mounted) !! 1%nat = mounted !! 1%nat
  /\ toggle 1 (toggle 1 mounted) = mounted.
Proof. apply (toggle_independent_involution mounted 1 2). lia. Defined.

(** A toggle does change the entry it is aimed at. *)
Lemma toggle_flips (items : list FAQItem) (i : nat) :
  isOpen <$> toggle i items !! i = negb <$> (isOpen <$> items !! i).
Proof.
  unfold toggle. rewrite list_lookup_alter_eq.
  by destruct (items !! i).
Qed.

(** Scenario 3 of the specification: two closed entries, the first is
    opened, the second stays closed. *)
Example toggle_scenario :
  toggle 0 [closed; closed] = [{| isOpen := true |}; closed].
Proof. reflexivity. Qed.

End FAQFacts.

(** * Further properties *)

Module CountdownMore.
Import Countdown Reading CountdownFacts.

Lemma in_range_nonneg (st : TimeLeft) : in_range st -> nonneg st.
Proof. unfold in_range, nonneg. lia. Qed.

Lemma in_range_safe (st : TimeLeft) :
  in_range st -> hours st <= two53 -> safe st.
Proof. unfold in_range, safe, two53. lia. Qed.

Lemma tick_in_range (st : TimeLeft) :
  in_range st -> hours st <= two53 ->
  in_range (tick st) /\ hours (tick st) <= two53.
Proof.
  unfold in_range. intros (Hh & Hm & Hs) Bh.
  tick_cases_exact st; lia.
Qed.

Lemma toSeconds_tick_le (st : TimeLeft) :
  nonneg st -> safe st -> toSeconds (tick st) <= toSeconds st.
Proof.
  unfold nonneg, safe, toSeconds. intros (Hh & Hm & Hs) (Bh & Bm & Bs).
  tick_cases_exact st; lia.
Qed.

Lemma ticks_nonneg_safe (n : nat) (st : TimeLeft) :
  nonneg st -> safe st -> nonneg (ticks n st) /\ safe (ticks n st).
Proof.
  revert st. induction n as [|n IH]; intros st Hnn Hsafe; [by split |].
  cbn [ticks]. apply IH; [by apply tick_nonneg | by apply tick_safe].
Qed.

Lemma ticks_in_range (n : nat) (st : TimeLeft) :
  in_range st -> hours st <= two53 -> in_range (ticks n st).
Proof.
  revert st. induction n as [|n IH]; intros st Hst Bh; [assumption |].
  cbn [ticks]. destruct (tick_in_range st Hst Bh) as [Hr Hb].
  by apply IH.
Qed.

(** A state within the field ranges is the reading of its seconds. *)
Lemma in_range_ofSeconds (st : TimeLeft) :
  in_range st -> st = ofSeconds (toSeconds st).
Proof.
  destruct st as [h m s]. unfold in_range, ofSeconds, toSeconds; cbn.
  intros (Hh & Hm & Hs).
  assert (E60 : (h * 3600 + m * 60 + s) / 60 = h * 60 + m).
  { symmetry. apply (Z.div_unique _ 60 _ s); lia. }
  f_equal.
  - apply (Z.div_unique _ 3600 _ (m * 60 + s)); lia.
  - rewrite E60. apply (Z.mod_unique _ 60 h m); lia.
  - apply (Z.mod_unique _ 60 (h * 60 + m) s); lia.
Qed.

(** X1: on a clock with no field above 2^53, the updater returns its
    argument unchanged exactly when no field is positive; such a clock
    with a positive field always moves. *)
Theorem tick_fixed_iff (st : TimeLeft) :
  hours st <= two53 -> minutes st <= two53 -> seconds st <= two53 ->
  tick st = st <-> seconds st <= 0 /\ minutes st <= 0 /\ hours st <= 0.
Proof.
  intros Bh Bm Bs. split.
  - intros Heq.
    pose proof (f_equal seconds Heq) as Es.
    pose proof (f_equal minutes Heq) as Em.
    pose proof (f_equal hours Heq) as Eh.
    revert Es Em Eh. tick_cases_exact st; lia.
  - intros (Hs & Hm & Hh). tick_cases st; solve [lia | reflexivity].
Qed.

Lemma tick_fixed_iff_witness :
  tick {| hours := 0; minutes := 3; seconds := 0 |}
  = {| hours := 0; minutes := 3; seconds := 0 |}
  <-> 0 <= 0 /\ 3 <= 0 /\ 0 <= 0.
Proof.
  apply (tick_fixed_iff {| hours := 0; minutes := 3; seconds := 0 |});
    unfold two53; cbn; lia.
Defined.

Lemma toSeconds_ticks_exact (n : nat) :
  forall st, nonneg st -> safe st ->
             toSeconds (ticks n st) = Z.max (toSeconds st - Z.of_nat n) 0.
Proof.
  induction n as [|n IH]; intros st Hnn Hsafe.
  - cbn [ticks]. pose proof (toSeconds_nonneg st Hnn). lia.
  - cbn [ticks].
    rewrite IH by (apply tick_nonneg || apply tick_safe; assumption).
    pose proof (toSeconds_nonneg st Hnn) as H0.
    destruct (Z.eq_dec (toSeconds st) 0) as [Hz | Hnz].
    + rewrite (toSeconds_zero st Hnn Hz), tick_zero.
      change (toSeconds zeroTimeLeft) with 0. lia.
    + rewrite toSeconds_tick_pos by (assumption || lia). lia.
Qed.

(** X2: after [n] ticks a clock whose fields are integers from 0 to 2^53
    shows [n] seconds less, and zero once [n] reaches what it showed. *)
Theorem toSeconds_ticks (n : nat) (st : TimeLeft) :
  0 <= hours st <= two53 -> 0 <= minutes st <= two53 ->
  0 <= seconds st <= two53 ->
  toSeconds (ticks n st) = Z.max (toSeconds st - Z.of_nat n) 0.
Proof.
  intros Hh Hm Hs.
  apply toSeconds_ticks_exact; [unfold nonneg | unfold safe]; lia.
Qed.

Lemma toSeconds_ticks_witness :
  toSeconds (ticks 70 {| hours := 0; minutes := 2; seconds := 75 |})
  = Z.max (toSeconds {| hours := 0; minutes := 2; seconds := 75 |}
           - Z.of_nat 70) 0.
Proof.
  apply (toSeconds_ticks 70 {| hours := 0; minutes := 2; seconds := 75 |});
    unfold two53; cbn; lia.
Defined.

(** X3: from a state within the field ranges, with hours up to 2^53,
    every number of ticks stays within them, and the state after [n] ticks
    is the h/m/s reading of the seconds that remain. *)
Theorem ticks_reading (n : nat) (st : TimeLeft) :
  0 <= hours st <= two53 -> 0 <= minutes st <= 59 -> 0 <= seconds st <= 59 ->
  in_range (ticks n st)
  /\ ticks n st = ofSeconds (Z.max (toSeconds st - Z.of_nat n) 0).
Proof.
  intros Hh Hm Hs.
  assert (Hr : in_range st) by (unfold in_range; lia).
  assert (Bh : hours st <= two53) by lia.
  pose proof (ticks_in_range n st Hr Bh) as Hrn.
  split; [exact Hrn |].
  rewrite (in_range_ofSeconds _ Hrn) at 1.
  f_equal. apply toSeconds_ticks_exact;
    [by apply in_range_nonneg | by apply in_range_safe].
Qed.

Lemma ticks_reading_witness :
  in_range (ticks 100 {| hours := 1; minutes := 1; seconds := 30 |})
  /\ ticks 100 {| hours := 1; minutes := 1; seconds := 30 |}
     = ofSeconds (Z.max (toSeconds {| hours := 1; minutes := 1;
                                      seconds := 30 |} - Z.of_nat 100) 0).
Proof.
  apply (ticks_reading 100 {| hours := 1; minutes := 1; seconds := 30 |});
    unfold two53; cbn; lia.
Defined.

End CountdownMore.

Module FormatMore.
Import Format Reading FormatFacts.
Local Open Scope string_scope.
Local Open Scope Z_scope.

Lemma string_length_app (s t : string) :
  String.length (s ++ t) = (String.length s + String.length t)%nat.
Proof.
  induction s as [|c s IH]; [reflexivity |].
  simpl. by rewrite IH.
Qed.

Lemma filler_length (pad : string) :
  pad <> "" ->
  forall (len : nat) (rest : string),
    String.length (filler pad rest len) = len.
Proof.
  intros Hpad. induction len as [|k IH]; intros rest; [reflexivity |].
  cbn [filler]. destruct rest as [|c rest'].
  - destruct pad as [|c pad']; [congruence |]. cbn. by rewrite IH.
  - cbn. by rewrite IH.
Qed.

Lemma filler_empty (rest : string) (len : nat) :
  String.length (filler "" rest len) = Nat.min len (String.length rest).
Proof.
  revert rest. induction len as [|k IH]; intros rest; [reflexivity |].
  destruct rest as [|c rest']; cbn; [reflexivity | by rewrite IH].
Qed.

(** X4: [padStart] never shortens or cuts its string: with a non-empty
    pad the result has the larger of the target length and the string's
    length, and is the string behind a prefix of just the missing length;
    with an empty pad the string comes back as it is. *)
Theorem padStart_length (s : string) (target : nat) (pad : string) :
  pad <> "" ->
  String.length (padStart s target pad) = Nat.max target (String.length s)
  /\ (exists pre : string,
        padStart s target pad = pre ++ s
        /\ String.length pre = (target - String.length s)%nat)
  /\ padStart s target "" = s.
Proof.
  intros Hpad. unfold padStart.
  destruct (Nat.leb_spec target (String.length s)) as [Hle | Hgt].
  - split; [lia |]. split; [| reflexivity].
    exists "". split; [reflexivity | cbn; lia].
  - split; [| split].
    + rewrite string_length_app, filler_length by assumption. lia.
    + eexists. split; [reflexivity |]. by apply filler_length.
    + pose proof (filler_empty "" (target - String.length s)) as Hf.
      destruct (filler "" "" (target - String.length s)); [reflexivity |].
      cbn in Hf. lia.
Qed.

Lemma padStart_length_witness :
  String.length (padStart "7" 5 "ab") = Nat.max 5 (String.length "7")
  /\ (exists pre : string,
        padStart "7" 5 "ab" = pre ++ "7"
        /\ String.length pre = (5 - String.length "7")%nat)
  /\ padStart "7" 5 "" = "7".
Proof. apply (padStart_length "7" 5 "ab"). discriminate. Defined.

Example padStart_cycles : padStart "7" 6 "abc" = "abcab7".
Proof. reflexivity. Qed.

Lemma decimal_length_pos (n : Z) : (1 <= String.length (decimal n))%nat.
Proof.
  destruct (Z_lt_dec n 10) as [Hlt | Hge].
  - rewrite decimal_one_digit by assumption. cbn. lia.
  - rewrite decimal_more_digits, string_length_app by lia. cbn. lia.
Qed.

Lemma decimal_length_ge2 (n : Z) :
  10 <= n -> (2 <= String.length (decimal n))%nat.
Proof.
  intros Hn. rewrite decimal_more_digits, string_length_app by assumption.
  pose proof (decimal_length_pos (n / 10)). cbn. lia.
Qed.

Lemma toString_length (n : Z) :
  (String.length (toString n) = 1)%nat <-> 0 <= n <= 9.
Proof.
  unfold toString. destruct (Z.ltb_spec n 0) as [Hneg | Hpos].
  - pose proof (decimal_length_pos (- n)). cbn [String.length]. lia.
  - destruct (Z_lt_dec n 10) as [Hlt | Hge].
    + rewrite decimal_one_digit by assumption. cbn. lia.
    + pose proof (decimal_length_ge2 n). lia.
Qed.

Lemma toString_length_pos (n : Z) : (1 <= String.length (toString n))%nat.
Proof.
  unfold toString. destruct (n <? 0).
  - cbn [String.length]. lia.
  - apply decimal_length_pos.
Qed.

(** The two cases of [format]. *)
Lemma format_cases (n : Z) :
  (0 <= n <= 9 /\ format n = String "0" (toString n))
  \/ (~ 0 <= n <= 9 /\ (2 <= String.length (toString n))%nat
      /\ format n = toString n).
Proof.
  pose proof (toString_length n) as H1.
  pose proof (toString_length_pos n) as Hp.
  unfold format, padStart in *.
  destruct (Nat.leb_spec 2 (String.length (toString n))) as [Hle | Hgt].
  - right. split; [lia | split; [assumption | reflexivity]].
  - assert (E : String.length (toString n) = 1%nat) by lia.
    left. split; [tauto |]. rewrite E. reflexivity.
Qed.

Lemma decimal_length_ge3 (n : Z) :
  100 <= n -> (3 <= String.length (decimal n))%nat.
Proof.
  intros Hn. rewrite decimal_more_digits, string_length_app by lia.
  assert (10 <= n / 10) by (apply Z.div_le_lower_bound; lia).
  pose proof (decimal_length_ge2 (n / 10)). cbn. lia.
Qed.

(** X5: on the integers of magnitude up to 2^53, [format] pads exactly
    the numbers 0..9, with one '0'; every other number, negative or of two
    or more digits, is rendered by [toString] alone, and a field of 100 or
    more takes at least three characters. *)
Theorem format_pads_iff (n : Z) :
  - Countdown.two53 <= n <= Countdown.two53 ->
  (format n = toString n <-> ~ 0 <= n <= 9)
  /\ (format n = String "0" (toString n) <-> 0 <= n <= 9)
  /\ String.length (format n) = Nat.max 2 (String.length (toString n))
  /\ (100 <= n -> (3 <= String.length (format n))%nat).
Proof.
  intros _.
  pose proof (toString_length n) as H1.
  destruct (format_cases n) as [(Hn & ->) | (Hn & Hlen & ->)].
  - assert (E : String.length (toString n) = 1%nat) by tauto.
    split; [| split; [| split]].
    + split; [| tauto].
      intros Heq. apply (f_equal String.length) in Heq. cbn in Heq. lia.
    + tauto.
    + cbn [String.length]. lia.
    + lia.
  - split; [| split; [| split]].
    + tauto.
    + split; [| tauto].
      intros Heq. apply (f_equal String.length) in Heq. cbn in Heq. lia.
    + lia.
    + intros H100. unfold toString.
      destruct (Z.ltb_spec n 0); [lia |]. by apply decimal_length_ge3.
Qed.

Lemma format_pads_iff_witness :
  (format 100 = toString 100 <-> ~ 0 <= 100 <= 9)
  /\ (format 100 = String "0" (toString 100) <-> 0 <= 100 <= 9)
  /\ String.length (format 100) = Nat.max 2 (String.length (toString 100))
  /\ (100 <= 100 -> (3 <= String.length (format 100))%nat).
Proof. apply (format_pads_iff 100). unfold Countdown.two53. lia. Defined.

Lemma digit_value_digit (d : Z) : 0 <= d <= 9 -> digit_value (digit d) = d.
Proof.
  intros Hd. unfold digit_value, digit.
  rewrite nat_ascii_embedding by lia. lia.
Qed.

Lemma value_from_app (s t : string) :
  forall acc, value_from acc (s ++ t) = value_from (value_from acc s) t.
Proof. induction s as [|c s IH]; intros acc; cbn; [reflexivity | apply IH]. Qed.

Lemma value_decimal (n : Z) : 0 <= n -> value (decimal n) = n.
Proof.
  intros Hn0. generalize Hn0. pattern n.
  apply Z_lt_induction; [| exact Hn0].
  clear n Hn0. intros n IH Hn.
  destruct (Z_lt_dec n 10) as [Hlt | Hge].
  - rewrite decimal_one_digit by assumption.
    unfold value. cbn [value_from]. rewrite digit_value_digit; lia.
  - rewrite decimal_more_digits by lia.
    unfold value. rewrite value_from_app. fold (value (decimal (n / 10))).
    assert (Hq : 0 <= n / 10 < n).
    { split; [apply Z.div_pos; lia | apply Z.div_lt; lia]. }
    rewrite IH by lia.
    cbn [value_from]. rewrite digit_value_digit.
    + pose proof (Z.div_mod n 10). lia.
    + pose proof (Z.mod_pos_bound n 10). lia.
Qed.

Lemma value_format (n : Z) : 0 <= n -> value (format n) = n.
Proof.
  intros Hn.
  assert (Ets : toString n = decimal n).
  { unfold toString. destruct (Z.ltb_spec n 0); [lia | reflexivity]. }
  destruct (format_cases n) as [(_ & ->) | (_ & _ & ->)]; rewrite Ets.
  - unfold value. cbn [value_from].
    change (10 * 0 + digit_value "0") with 0.
    apply value_decimal, Hn.
  - apply value_decimal, Hn.
Qed.

(** X6: what [format] shows of an integer from 0 to 2^53 reads back as
    that number, so two different such field values never show the same
    text. *)
Theorem format_reads_back (n m : Z) :
  0 <= n <= Countdown.two53 -> 0 <= m <= Countdown.two53 ->
  value (format n) = n /\ (format n = format m -> n = m).
Proof.
  intros [Hn _] [Hm _]. split; [by apply value_format |].
  intros Heq. rewrite <- (value_format n Hn), <- (value_format m Hm).
  by rewrite Heq.
Qed.

Lemma format_reads_back_witness :
  value (format 7) = 7 /\ (format 7 = format 70 -> 7 = 70).
Proof.
  apply (format_reads_back 7 70); unfold Countdown.two53; lia.
Defined.

End FormatMore.

Module LifecycleMore.
Import Countdown Lifecycle Reading.
Import CountdownFacts CountdownMore LifecycleFacts.

Lemma clock_bounded_step (w : World) (e : Event) :
  clock_bounded w -> clock_bounded (step w e).
Proof.
  unfold clock_bounded. intros Hw.
  destruct e as [| id |]; cbn [step].
  - unfold mount. destruct (clock w) as [c|] eqn:Hc; [by rewrite Hc |].
    cbn. unfold in_range, toSeconds. cbn. lia.
  - unfold fire. case_decide; [| assumption].
    cbn. destruct (clock w) as [c|]; [| done].
    cbn. destruct Hw as [Hr Hle].
    assert (Bh : hours (timeLeft c) <= two53).
    { unfold in_range, toSeconds, two53 in *. lia. }
    split; [by apply tick_in_range |].
    pose proof (toSeconds_tick_le _ (in_range_nonneg _ Hr)
                  (in_range_safe _ Hr Bh)). lia.
  - unfold dispose. destruct (clock w) as [c|] eqn:Hc; [done | by rewrite Hc].
Qed.

Lemma clock_bounded_run (es : list Event) (w : World) :
  clock_bounded w -> clock_bounded (run es w).
Proof.
  revert w. induction es as [|e es IH]; intros w Hw; [assumption |].
  cbn. apply IH, clock_bounded_step, Hw.
Qed.

Lemma run_app (es1 es2 : list Event) (w : World) :
  run (es1 ++ es2) w = run es2 (run es1 w).
Proof. unfold run. apply foldl_app. Qed.

(** Deliveries of the mounted clock's own interval. *)
Lemma fire_own (k : nat) :
  forall (w : World) (c : Instance),
    clock w = Some c -> timer c ∈ intervals (host w) ->
    run (replicate k (Fire (timer c))) w
    = {| host := host w;
         clock := Some {| timeLeft := ticks k (timeLeft c);
                          timer := timer c |};
         fired := fired w + k |}.
Proof.
  induction k as [|k IH]; intros w c Hc Hin.
  - cbn. destruct w as [h cl f]; cbn in *. subst cl.
    destruct c; cbn. f_equal. lia.
  - cbn [replicate]. change (run (?e :: ?es) w) with (run es (step w e)).
    cbn [step]. unfold fire. rewrite decide_True by assumption.
    rewrite Hc. cbn [fmap option_fmap option_map].
    rewrite (IH _ (setTimeLeft tick c)); [| reflexivity | assumption].
    cbn. f_equal. lia.
Qed.

(** X7: in whatever world the page has reached, [k] deliveries of the
    mounted clock's interval run the callback [k] times and leave the
    clock at [k] ticks from where it was; the timer table is untouched. *)
Theorem deliveries_tick
  (firstId : nat) (history : list Event) (c : Instance) (k : nat) :
  clock (run history (init firstId)) = Some c ->
  run (history ++ replicate k (Fire (timer c))) (init firstId)
  = {| host := host (run history (init firstId));
       clock := Some {| timeLeft := ticks k (timeLeft c); timer := timer c |};
       fired := fired (run history (init firstId)) + k |}.
Proof.
  intros Hc. rewrite run_app. apply fire_own; [assumption |].
  pose proof (timers_owned_run history (init firstId)
                (timers_owned_init firstId)) as Hown.
  unfold timers_owned in Hown. rewrite Hc in Hown. rewrite Hown.
  by apply elem_of_singleton.
Qed.

Lemma deliveries_tick_witness :
  run ([Mount; Fire 1] ++ replicate 3 (Fire 1)) (init 1)
  = {| host := host (run [Mount; Fire 1] (init 1));
       clock := Some {| timeLeft := ticks 3 {| hours := 1; minutes := 24;
                                              seconds := 58 |};
                        timer := 1 |};
       fired := fired (run [Mount; Fire 1] (init 1)) + 3 |}.
Proof.
  apply (deliveries_tick 1 [Mount; Fire 1]
           {| timeLeft := {| hours := 1; minutes := 24; seconds := 58 |};
              timer := 1 |} 3).
  vm_compute. reflexivity.
Defined.

(** X8: whatever the page went through, at most one interval is
    scheduled, and one is scheduled exactly while the clock is mounted:
    remounting never piles up timers. *)
Theorem one_interval_at_most (firstId : nat) (history : list Event) :
  (size (intervals (host (run history (init firstId)))) <= 1)%nat
  /\ (intervals (host (run history (init firstId))) = ∅
      <-> clock (run history (init firstId)) = None).
Proof.
  pose proof (timers_owned_run history (init firstId)
                (timers_owned_init firstId)) as Hown.
  unfold timers_owned in Hown. rewrite Hown.
  destruct (clock (run history (init firstId))) as [c|].
  - rewrite size_singleton. split; [lia |].
    split; [| discriminate]. intros He.
    by apply non_empty_singleton_L in He.
  - rewrite size_empty. split; [lia | done].
Qed.

(** X9: a delivery runs the callback only for the handle of the clock
    that is mounted, and then it is one tick of that clock; a delivery of
    any other id, or of any id while no clock is mounted, leaves the world
    as it is. *)
Theorem foreign_delivery_idle
  (firstId : nat) (history : list Event) (id : nat) :
  fire id (run history (init firstId)) = run history (init firstId)
  \/ (exists c,
        clock (run history (init firstId)) = Some c
        /\ timer c = id
        /\ clock (fire id (run history (init firstId)))
           = Some {| timeLeft := tick (timeLeft c); timer := id |}
        /\ fired (fire id (run history (init firstId)))
           = S (fired (run history (init firstId)))).
Proof.
  pose proof (timers_owned_run history (init firstId)
                (timers_owned_init firstId)) as Hown.
  unfold timers_owned in Hown. unfold fire.
  case_decide as Hin; [| by left].
  right. rewrite Hown in Hin.
  destruct (clock (run history (init firstId))) as [c|].
  - apply elem_of_singleton in Hin. subst id.
    exists c. repeat split.
  - by apply not_elem_of_empty in Hin.
Qed.

End LifecycleMore.

Module DisplayMore.
Import Countdown Format Lifecycle Reading.
Import FormatFacts FormatMore CountdownMore LifecycleMore.

Lemma format_length_two (n : Z) :
  0 <= n <= 59 -> String.length (format n) = 2%nat.
Proof.
  intros Hn.
  destruct (format_cases n) as [(Hs & ->) | (Hb & _ & ->)].
  - cbn [String.length]. f_equal. by apply toString_length.
  - unfold toString. destruct (Z.ltb_spec n 0); [lia |].
    rewrite decimal_two_digits by lia. reflexivity.
Qed.

(** X11: whatever the page went through, a mounted clock shows a time
    within the field ranges and not above the initial 1:24:59, and each of
    its three boxes renders as exactly two characters. *)
Theorem reachable_display
  (firstId : nat) (history : list Event) (c : Instance) :
  clock (run history (init firstId)) = Some c ->
  in_range (timeLeft c)
  /\ toSeconds (timeLeft c) <= 5099
  /\ Forall (fun s => String.length s = 2%nat) (boxes (timeLeft c)).
Proof.
  intros Hc.
  assert (Hb : clock_bounded (run history (init firstId))).
  { apply clock_bounded_run. exact I. }
  unfold clock_bounded in Hb. rewrite Hc in Hb. destruct Hb as [Hr Hle].
  split; [exact Hr |]. split; [exact Hle |].
  unfold in_range, toSeconds in *. unfold boxes. cbn [fmap list_fmap].
  repeat constructor; apply format_length_two; lia.
Qed.

Lemma reachable_display_witness :
  in_range {| hours := 1; minutes := 24; seconds := 57 |}
  /\ toSeconds {| hours := 1; minutes := 24; seconds := 57 |} <= 5099
  /\ Forall (fun s => String.length s = 2%nat)
            (boxes {| hours := 1; minutes := 24; seconds := 57 |}).
Proof.
  apply (reachable_display 1 [Mount; Fire 1; Fire 1]
           {| timeLeft := {| hours := 1; minutes := 24; seconds := 57 |};
              timer := 1 |}).
  vm_compute. reflexivity.
Defined.

End DisplayMore.

Module ScrollRevealMore.
Import ScrollReveal ScrollRevealFacts.

Lemma callback_observed (entries : list Entry) (h : Hook) :
  observed (callback entries h) = observed h.
Proof.
  unfold callback. revert h.
  induction entries as [|e es IH]; intros h; [reflexivity |].
  cbn. rewrite IH. by destruct (isIntersecting e).
Qed.

(** X12: after any callbacks the flag is what it was, or true if some
    entry of some callback reported intersection: how the entries were
    batched and in which order they came makes no difference, and the
    callback never changes what is observed. *)
Theorem deliver_flag (batches : list (list Entry)) (h : Hook) :
  isVisible (deliver batches h)
  = isVisible h || existsb (existsb isIntersecting) batches
  /\ isVisible (deliver batches h)
     = isVisible (callback (concat batches) h)
  /\ observed (deliver batches h) = observed h.
Proof.
  assert (H1 : forall bs h',
             isVisible (deliver bs h')
             = isVisible h' || existsb (existsb isIntersecting) bs).
  { unfold deliver. induction bs as [|b bs IH]; intros h'; cbn.
    - by rewrite orb_false_r.
    - rewrite IH, callback_isVisible. by rewrite orb_assoc. }
  split; [apply H1 |]. split.
  - rewrite H1, callback_isVisible. f_equal.
    induction batches as [|b bs IH]; [reflexivity |].
    cbn. by rewrite existsb_app, IH.
  - unfold deliver. revert h.
    induction batches as [|b bs IH]; intros h; [reflexivity |].
    cbn. rewrite IH. apply callback_observed.
Qed.

End ScrollRevealMore.

Module FAQMore.
Import FAQ Reading FAQFacts.

Lemma click_all_length (clicks : list nat) (items : list FAQItem) :
  length (click_all clicks items) = length items.
Proof.
  unfold click_all. revert items.
  induction clicks as [|i cs IH]; intros items; [reflexivity |].
  cbn. rewrite IH. apply toggle_length.
Qed.

(** X13: after any sequence of clicks on the FAQ list, entry [k] has the
    flag it started with if it was clicked an even number of times and the
    opposite flag if an odd number; clicks on other entries do not count,
    and the list keeps its length. *)
Theorem clicks_parity
  (clicks : list nat) (items : list FAQItem) (k : nat) :
  isOpen <$> click_all clicks items !! k
  = (fun it => xorb (isOpen it) (Nat.odd (count_occ Nat.eq_dec clicks k)))
      <$> items !! k
  /\ length (click_all clicks items) = length items.
Proof.
  split; [| apply click_all_length].
  unfold click_all. revert items.
  induction clicks as [|i cs IH]; intros items.
  - cbn. destruct (items !! k) as [it|]; [| reflexivity].
    cbn. by rewrite xorb_false_r.
  - cbn [foldl]. rewrite IH. cbn [count_occ].
    destruct (Nat.eq_dec i k) as [-> | Hne].
    + unfold toggle. rewrite list_lookup_alter_eq.
      destruct (items !! k) as [it|]; [| reflexivity].
      cbn. f_equal. rewrite Nat.odd_succ, <- Nat.negb_odd.
      by destruct (isOpen it), (Nat.odd (count_occ Nat.eq_dec cs k)).
    + unfold toggle. by rewrite list_lookup_alter_ne.
Qed.

Example several_open :
  isOpen <$> click_all [0; 2; 0; 3; 0]%nat mounted
  = [true; false; true; true].
Proof. reflexivity. Qed.

End FAQMore.

Module RunDown.
Import Countdown Lifecycle Reading.
Import CountdownFacts CountdownMore LifecycleFacts LifecycleMore.

Lemma initial_runs_down (k : nat) :
  5099 <= Z.of_nat k -> ticks k initialTimeLeft = zeroTimeLeft.
Proof.
  intros Hk.
  replace k with (Z.to_nat 5099 + (k - Z.to_nat 5099))%nat by lia.
  rewrite ticks_add, (ticks_reach_zero (Z.to_nat 5099) initialTimeLeft).
  - apply ticks_zero.
  - unfold nonneg, initialTimeLeft; cbn [hours minutes seconds]. lia.
  - unfold safe, two53, initialTimeLeft; cbn [hours minutes seconds]. lia.
  - rewrite Z2Nat.id by lia. reflexivity.
Qed.

(** X15: a freshly mounted clock reads 0:00:00 from its 5099th delivery
    on; reaching zero does not clear the interval, which stays scheduled
    and keeps running the callback, without effect on the clock. *)
Theorem runs_down_and_keeps_firing (firstId k : nat) :
  5099 <= Z.of_nat k ->
  run (Mount :: replicate k (Fire firstId)) (init firstId)
  = {| host := {| nextTimer := S firstId; intervals := {[ firstId ]} |};
       clock := Some {| timeLeft := zeroTimeLeft; timer := firstId |};
       fired := k |}.
Proof.
  intros Hk.
  change (run (Mount :: ?es) ?w) with (run es (mount w)).
  unfold mount, init. cbn [clock host fired setInterval nextTimer intervals].
  rewrite (right_id_L ∅ (∪)).
  rewrite (fire_own k _ {| timeLeft := initialTimeLeft; timer := firstId |});
    [| reflexivity
     | cbn [clock host timer intervals]; by apply elem_of_singleton].
  cbn [clock host fired timeLeft timer Nat.add].
  by rewrite initial_runs_down.
Qed.

Lemma runs_down_and_keeps_firing_witness :
  run (Mount :: replicate (Z.to_nat 6000) (Fire 1)) (init 1)
  = {| host := {| nextTimer := 2; intervals := {[ 1%nat ]} |};
       clock := Some {| timeLeft := zeroTimeLeft; timer := 1 |};
       fired := Z.to_nat 6000 |}.
Proof. apply (runs_down_and_keeps_firing 1 (Z.to_nat 6000)). lia. Defined.

End RunDown.
